(** * MulticopterSim: the platform-independent multirotor dynamics class

    A shallow embedding of [Source/MulticopterSim/dynamics/NewMultirotorDynamics.hpp]
    (class [MultirotorDynamics]): the 12-component state vector, the motor
    mixing of [setMotors], the in-place step of [update], [init] and
    [getState].

    Conventions of the embedding.
    - The C++ type [double] is an abstract carrier [D] with exactly the
      operations the class applies to it ([DoubleOps]); no law is assumed
      about them.  What is proved in the generic part therefore holds for
      IEEE binary64 with its infinities and NaN as well as for the reals.
      Where a claim needs arithmetic, it is settled at the instance of the
      real numbers ([R_DoubleOps]).
    - The pure virtual methods of the class are the fields of [Vehicle].
    - Member functions become functions on the record [State] of the data
      members; a statement that writes a member rebuilds the record.
    - An access outside an array, which C++ leaves undefined, is [None]. *)

From Stdlib Require Import ZArith QArith Reals Machin Lra Lia.
From stdpp Require Import base option list relations.

Set Default Proof Using "Type".

(** ** The arithmetic of [double] *)

Class DoubleOps (D : Type) := {
  of_int : Z -> D;          (* conversion of an [int] or [unsigned int] *)
  lit : Q -> D;             (* a decimal literal of the source text *)
  dadd : D -> D -> D;
  dsub : D -> D -> D;
  dmul : D -> D -> D;
  ddiv : D -> D -> D;
  dneg : D -> D;
  dcos : D -> D;            (* [cos] and [sin] of <math.h> *)
  dsin : D -> D
}.

Declare Scope double_scope.
Delimit Scope double_scope with D.
Infix "+" := dadd : double_scope.
Infix "-" := dsub : double_scope.
Infix "*" := dmul : double_scope.
Infix "/" := ddiv : double_scope.
Notation "- x" := (dneg x) : double_scope.

(** [double position[3]]: an array of three doubles. *)
Record array3 (D : Type) := Arr3 { a0 : D; a1 : D; a2 : D }.
Arguments Arr3 {D} _ _ _.
Arguments a0 {D} _.
Arguments a1 {D} _.
Arguments a2 {D} _.

(** ** The vehicle: the pure virtual methods a subclass implements *)

Record Vehicle (D : Type) := mkVehicle {
  b : D;
  d : D;
  m : D;
  l : D;
  Ix : D;
  Iy : D;
  Iz : D;
  Jr : D;
  maxrpm : N;                   (* [unsigned int] *)
  u2 : list D -> D;
  u3 : list D -> D;
  u4 : list D -> D;
  omega : list D -> D
}.
Arguments mkVehicle {D}.
Arguments b {D} _.
Arguments d {D} _.
Arguments m {D} _.
Arguments l {D} _.
Arguments Ix {D} _.
Arguments Iy {D} _.
Arguments Iz {D} _.
Arguments Jr {D} _.
Arguments maxrpm {D} _.
Arguments u2 {D} _ _.
Arguments u3 {D} _ _.
Arguments u4 {D} _ _.
Arguments omega {D} _ _.

(** ** The data members *)

Record State (D : Type) := mkState {
  _x : list D;          (* double _x[12] *)
  _nmotors : Z;         (* int _nmotors *)
  _omegas : list D;     (* double * _omegas, the buffer it points to *)
  _airborne : bool;
  _U1 : D;
  _U2 : D;
  _U3 : D;
  _U4 : D;
  _Omega : D
}.
Arguments mkState {D}.
Arguments _x {D} _.
Arguments _nmotors {D} _.
Arguments _omegas {D} _.
Arguments _airborne {D} _.
Arguments _U1 {D} _.
Arguments _U2 {D} _.
Arguments _U3 {D} _.
Arguments _U4 {D} _.
Arguments _Omega {D} _.

Section Dynamics.

Context {D : Type} {ops : DoubleOps D}.

Local Open Scope double_scope.

(** The value of the [int] literal [0] stored into a [double]. *)
Definition dzero : D := of_int 0.

#[local] Instance D_inhabited : Inhabited D := populate dzero.

(** Universal constants. *)
Definition g : D := lit 9.80665%Q.
Definition pi : D := lit 3.14159%Q.

(** Writes to single members. *)
Definition set_x (a : list D) (s : State D) : State D :=
  mkState a (_nmotors s) (_omegas s) (_airborne s)
          (_U1 s) (_U2 s) (_U3 s) (_U4 s) (_Omega s).

Definition set_omegas (o : list D) (s : State D) : State D :=
  mkState (_x s) (_nmotors s) o (_airborne s)
          (_U1 s) (_U2 s) (_U3 s) (_U4 s) (_Omega s).

Definition set_airborne (a : bool) (s : State D) : State D :=
  mkState (_x s) (_nmotors s) (_omegas s) a
          (_U1 s) (_U2 s) (_U3 s) (_U4 s) (_Omega s).

Definition set_U1 (v : D) (s : State D) : State D :=
  mkState (_x s) (_nmotors s) (_omegas s) (_airborne s)
          v (_U2 s) (_U3 s) (_U4 s) (_Omega s).

Definition set_U2 (v : D) (s : State D) : State D :=
  mkState (_x s) (_nmotors s) (_omegas s) (_airborne s)
          (_U1 s) v (_U3 s) (_U4 s) (_Omega s).

Definition set_U3 (v : D) (s : State D) : State D :=
  mkState (_x s) (_nmotors s) (_omegas s) (_airborne s)
          (_U1 s) (_U2 s) v (_U4 s) (_Omega s).

Definition set_U4 (v : D) (s : State D) : State D :=
  mkState (_x s) (_nmotors s) (_omegas s) (_airborne s)
          (_U1 s) (_U2 s) (_U3 s) v (_Omega s).

Definition set_Omega (v : D) (s : State D) : State D :=
  mkState (_x s) (_nmotors s) (_omegas s) (_airborne s)
          (_U1 s) (_U2 s) (_U3 s) (_U4 s) v.

(** [_x[i] = v;] for a constant index [i] below 12. *)
Definition put (i : nat) (v : D) (s : State D) : State D :=
  set_x (<[i := v]> (_x s)) s.

(** [double x(int j) { return _x[j-1]; }]: 1-based read of the state vector. *)
Definition x (s : State D) (j : nat) : D := _x s !!! (j - 1)%nat.

(** *** The constructor

    [MultirotorDynamics(int nmotors) { _omegas = new double[nmotors]; }]

    The member initialisers zero [_x], [_airborne], [_U1] to [_U4] and
    [_Omega].  Nothing assigns [_nmotors], and [new double[nmotors]] does
    not initialise the buffer: their indeterminate contents are the
    arguments [indet_nmotors] and [indet_omegas].  A negative [nmotors]
    makes [new] throw. *)
Definition MultirotorDynamics
    (indet_nmotors : Z) (indet_omegas : nat -> D) (nmotors : Z)
  : option (State D) :=
  if (nmotors <? 0)%Z then None
  else Some (mkState (replicate 12 dzero)
                     indet_nmotors
                     (indet_omegas <$> seq 0 (Z.to_nat nmotors))
                     false
                     dzero dzero dzero dzero dzero).

(** *** init *)

(** [for (int i=0; i<12; ++i) { _x[i] = 0; }] *)
Definition zero_out (s : State D) : State D :=
  foldl (fun s i => put i dzero s) s (seq 0 12).

Definition init (position rotation : array3 D) (airborne : bool)
    (s : State D) : State D :=
  let s := zero_out s in
  let s := put 0 (a0 position) s in
  let s := put 2 (a1 position) s in
  let s := put 4 (a2 position) s in
  let s := put 6 (a0 rotation) s in
  let s := put 8 (a1 rotation) s in
  let s := put 10 (a2 rotation) s in
  set_airborne airborne s.

(** *** getState: the body is empty *)
Definition getState (s : State D)
    (angularVelocity eulerAngles velocityXYZ positionXYZ : array3 D)
  : State D * (array3 D * array3 D * array3 D * array3 D) :=
  (s, (angularVelocity, eulerAngles, velocityXYZ, positionXYZ)).

Section WithVehicle.

Variable V : Vehicle D.

(** *** update: twelve assignments, one after the other, into [_x] *)
Definition update (dt : D) (s : State D) : State D :=
  let s := put 0 (x s 2) s in
  let s := put 1 ((dcos (x s 7) * dsin (x s 9) * dcos (x s 11)
                   + dsin (x s 7) * dsin (x s 11)) * _U1 s / m V) s in
  let s := put 2 (x s 4) s in
  let s := put 3 ((dcos (x s 7) * dsin (x s 9) * dsin (x s 11)
                   + dsin (x s 7) * dcos (x s 11)) * _U1 s / m V) s in
  let s := put 4 (x s 6) s in
  let s := put 5 (- g + (dcos (x s 7) * dcos (x s 9)) * _U1 s / m V) s in
  let s := put 6 (x s 8) s in
  let s := put 7 (x s 12 * x s 10 * (Iy V - Iz V) / Ix V
                  - Jr V / Ix V * x s 10 * _Omega s
                  + l V / Ix V * _U2 s) s in
  let s := put 8 (x s 10) s in
  let s := put 9 (x s 12 * x s 8 * (Iz V - Ix V) / Iy V
                  + Jr V / Iy V * x s 8 * _Omega s
                  + l V / Iy V * _U3 s) s in
  let s := put 10 (x s 12) s in
  put 11 (x s 10 * x s 8 * (Ix V - Iy V) / Iz V + l V / Iz V * _U4 s) s.

(** *** setMotors *)

(** One motor speed: [motorvals[i] * maxrpm() * pi / 30]. *)
Definition rad_per_sec (c : D) : D :=
  c * of_int (Z.of_N (maxrpm V)) * pi / of_int 30.

(** First loop, [k] iterations left, at index [i]:
    [_omegas[i] = motorvals[i] * maxrpm() * pi / 30; _U1 += _omegas[i];] *)
Fixpoint convert_loop (motorvals : list D) (k i : nat) (s : State D)
  : option (State D) :=
  match k with
  | O => Some s
  | S k' =>
      c ← motorvals !! i;
      _ ← _omegas s !! i;
      let s := set_omegas (<[i := rad_per_sec c]> (_omegas s)) s in
      let s := set_U1 (_U1 s + _omegas s !!! i) s in
      convert_loop motorvals k' (S i) s
  end.

(** Second loop: [_omegas[i] *= _omegas[i];] *)
Fixpoint square_loop (k i : nat) (s : State D) : option (State D) :=
  match k with
  | O => Some s
  | S k' =>
      w ← _omegas s !! i;
      let s := set_omegas (<[i := w * w]> (_omegas s)) s in
      square_loop k' (S i) s
  end.

Definition setMotors (motorvals : list D) (s : State D) : option (State D) :=
  let n := Z.to_nat (_nmotors s) in
  let s := set_U1 dzero s in
  s ← convert_loop motorvals n 0 s;
  let s := set_U1 (_U1 s * b V) s in
  let s := set_Omega (omega V (_omegas s)) s in
  s ← square_loop n 0 s;
  let s := set_U2 (b V * u2 V (_omegas s)) s in
  let s := set_U3 (b V * u3 V (_omegas s)) s in
  let s := set_U4 (d V * u4 V (_omegas s)) s in
  Some s.

(** *** Reference definitions, written from the design law

    [derivative] lists the twelve right-hand sides of the update law, all
    read from one and the same state.  [update_simultaneous] stores them
    as the next state in one simultaneous assignment; [euler_step] is the
    explicit step [state + derivative(state) * dt]. *)
Definition derivative (s : State D) : list D :=
  [ x s 2;
    (dcos (x s 7) * dsin (x s 9) * dcos (x s 11)
     + dsin (x s 7) * dsin (x s 11)) * _U1 s / m V;
    x s 4;
    (dcos (x s 7) * dsin (x s 9) * dsin (x s 11)
     + dsin (x s 7) * dcos (x s 11)) * _U1 s / m V;
    x s 6;
    - g + (dcos (x s 7) * dcos (x s 9)) * _U1 s / m V;
    x s 8;
    x s 12 * x s 10 * (Iy V - Iz V) / Ix V
      - Jr V / Ix V * x s 10 * _Omega s + l V / Ix V * _U2 s;
    x s 10;
    x s 12 * x s 8 * (Iz V - Ix V) / Iy V
      + Jr V / Iy V * x s 8 * _Omega s + l V / Iy V * _U3 s;
    x s 12;
    x s 10 * x s 8 * (Ix V - Iy V) / Iz V + l V / Iz V * _U4 s ].

Definition update_simultaneous (s : State D) : State D :=
  set_x (derivative s) s.

Definition euler_step (dt : D) (s : State D) : State D :=
  set_x (zip_with (fun xi di => xi + di * dt) (_x s) (derivative s)) s.

(** *** A driver: any sequence of calls after [init] *)

Inductive Call :=
| CallSetMotors (motorvals : list D)
| CallUpdate (dt : D)
| CallGetState (angularVelocity eulerAngles velocityXYZ positionXYZ : array3 D).

(** What a caller sees of a [getState] call: the four output arrays. *)
Definition Outputs : Type := array3 D * array3 D * array3 D * array3 D.

(** [run calls s] performs the calls in order; the result is the final
    object together with the outputs of the [getState] calls, oldest
    first. *)
Fixpoint run (calls : list Call) (s : State D)
  : option (State D * list Outputs) :=
  match calls with
  | [] => Some (s, [])
  | CallSetMotors motorvals :: rest =>
      s' ← setMotors motorvals s; run rest s'
  | CallUpdate dt :: rest => run rest (update dt s)
  | CallGetState av ea v p :: rest =>
      let '(s', out) := getState s av ea v p in
      '(s'', outs) ← run rest s';
      Some (s'', out :: outs)
  end.

End WithVehicle.

(** The generalized forces stored in the object. *)
Definition forces (s : State D) : D * D * D * D * D :=
  (_U1 s, _U2 s, _U3 s, _U4 s, _Omega s).

(** The twelve components, the forces, and what [getState] handed out. *)
Definition observable (r : State D * list Outputs)
  : list D * (D * D * D * D * D) * list Outputs :=
  (_x r.1, forces r.1, r.2).

(** The result of a run, with the flag overwritten. *)
Definition with_airborne (a : bool) (r : State D * list Outputs)
  : State D * list Outputs :=
  (set_airborne a r.1, r.2).

(** The members that the loops of [setMotors] leave alone. *)
Definition rest_of_omegas (s : State D) :=
  (_x s, _nmotors s, _airborne s, _U2 s, _U3 s, _U4 s, _Omega s).

(** The accumulation [acc = 0; acc += w_0; acc += w_1; ...]. *)
Definition dsum (ws : list D) : D := foldl dadd dzero ws.

(** *** A vehicle to evaluate the class on

    The class is abstract; this subclass takes its constants from
    [Rocket::params] and mixes four motors in the plus configuration of
    Eqn. 6 of the paper the header cites. *)
Definition example_vehicle : Vehicle D :=
  mkVehicle (lit 0.000005%Q) (lit 0.000002%Q) (lit 1.380%Q) (lit 0.350%Q)
            (of_int 2) (of_int 2) (of_int 3) (lit 0.0038%Q)
            15000%N
            (fun o => o !!! 3%nat - o !!! 1%nat)
            (fun o => o !!! 2%nat - o !!! 0%nat)
            (fun o => o !!! 1%nat + o !!! 3%nat - o !!! 0%nat - o !!! 2%nat)
            (fun o => o !!! 1%nat + o !!! 3%nat - o !!! 0%nat - o !!! 2%nat).

End Dynamics.

(** ** The real numbers as an instance of the arithmetic *)

#[export] Instance R_DoubleOps : DoubleOps R := {|
  of_int := IZR;
  lit := Q2R;
  dadd := Rplus;
  dsub := Rminus;
  dmul := Rmult;
  ddiv := Rdiv;
  dneg := Ropp;
  dcos := Rtrigo_def.cos;
  dsin := Rtrigo_def.sin
|}.

(** A linear combination of the entries of the speed buffer. *)
Definition lincomb (k : list R) (o : list R) : R :=
  foldr Rplus 0%R (zip_with Rmult k o).

Definition linear (f : list R -> R) : Prop :=
  exists k, forall o, f o = lincomb k o.

(** ** Objects and inputs to evaluate the class on, over the reals *)

Definition quad : Vehicle R := example_vehicle.

(** A four-motor object before its first [init]: the vector and the
    forces are zero, the buffer holds four entries, and [_nmotors] is 4,
    as a four-motor subclass relies on. *)
Definition fresh4 : State R :=
  mkState (replicate 12 0%R) 4 [0; 0; 0; 0]%R false 0%R 0%R 0%R 0%R 0%R.

(** At rest at [x = 1], no thrust. *)
Definition parked : State R :=
  mkState [1; 0; 0; 0; 0; 0; 0; 0; 0; 0; 0; 0]%R 4 [0; 0; 0; 0]%R false
          0%R 0%R 0%R 0%R 0%R.

(** Roll rate 1 and yaw rate 1, everything else 0. *)
Definition spinning : State R :=
  mkState [0; 0; 0; 0; 0; 0; 0; 1; 0; 0; 0; 1]%R 4 [0; 0; 0; 0]%R false
          0%R 0%R 0%R 0%R 0%R.

(** On the ground at [(1, 2, 3)], level. *)
Definition grounded : State R :=
  init (Arr3 1 2 3)%R (Arr3 0 0 0)%R false fresh4.

(** [grounded] with all forces at zero. *)
Definition idle : State R :=
  mkState [1; 0; 2; 0; 3; 0; 0; 0; 0; 0; 0; 0]%R 4 [0; 0; 0; 0]%R false
          0%R 0%R 0%R 0%R 0%R.

(** ** One call of a member function on an object *)

Inductive step {D : Type} {ops : DoubleOps D} (V : Vehicle D)
  : State D -> State D -> Prop :=
| step_init p r a s : step V s (init p r a s)
| step_setMotors motorvals s s' :
    setMotors V motorvals s = Some s' -> step V s s'
| step_update dt s : step V s (update V dt s)
| step_getState av ea v p s : step V s (getState s av ea v p).1.

(** ** Facts that hold in every arithmetic *)

Section Facts.

Context {D : Type} {ops : DoubleOps D}.
Variable V : Vehicle D.

Local Open Scope double_scope.

#[local] Existing Instance D_inhabited.

Ltac loop_step :=
  let c := fresh "c" in
  let Hc := fresh "Hc" in
  cbn [convert_loop square_loop];
  match goal with
  | |- context [?a !! ?i ≫= _] =>
      destruct (a !! i) as [c|] eqn:Hc; cbn [mbind option_bind]; [|discriminate]
  end.

Lemma convert_loop_frame motorvals k : forall i s s',
  convert_loop V motorvals k i s = Some s' ->
  rest_of_omegas s' = rest_of_omegas s /\
  length (_omegas s') = length (_omegas s).
Proof.
  induction k as [|k IH]; intros i s s'.
  - cbn. intros [= <-]. done.
  - loop_step. loop_step. intros Hrun.
    apply IH in Hrun as [-> Hlen]. split; [done|].
    rewrite Hlen. cbn. apply length_insert.
Qed.

Lemma square_loop_frame k : forall i s s',
  square_loop k i s = Some s' ->
  rest_of_omegas s' = rest_of_omegas s /\ _U1 s' = _U1 s /\
  length (_omegas s') = length (_omegas s).
Proof.
  induction k as [|k IH]; intros i s s'.
  - cbn. intros [= <-]. done.
  - loop_step. intros Hrun.
    apply IH in Hrun as (-> & -> & Hlen). repeat split.
    rewrite Hlen. cbn. apply length_insert.
Qed.

(** The first loop writes [k] converted commands at [i], [i+1], ... and
    adds them, in this order, to [_U1]. *)
Lemma convert_loop_spec motorvals k : forall i s,
  i + k <= length motorvals ->
  i + k <= length (_omegas s) ->
  let ws := rad_per_sec V <$> take k (drop i motorvals) in
  convert_loop V motorvals k i s =
  Some (set_U1 (foldl dadd (_U1 s) ws)
         (set_omegas (take i (_omegas s) ++ ws ++ drop (i + k) (_omegas s)) s)).
Proof.
  induction k as [|k IH]; intros i s Hc Ho; cbn zeta.
  - rewrite take_0, Nat.add_0_r. cbn. rewrite take_drop. by destruct s.
  - cbn [convert_loop].
    destruct (lookup_lt_is_Some_2 motorvals i) as [c Hci]; [lia|].
    destruct (lookup_lt_is_Some_2 (_omegas s) i) as [w Hwi]; [lia|].
    rewrite Hci, Hwi. cbn [mbind option_bind].
    rewrite IH; cbn [_omegas _U1 set_omegas set_U1];
      rewrite ?length_insert; try lia.
    rewrite list_lookup_total_insert_eq by lia.
    rewrite (drop_S _ _ _ Hci), firstn_cons. cbn [fmap list_fmap foldl].
    rewrite (take_S_r (<[i:=rad_per_sec V c]> (_omegas s)) i (rad_per_sec V c))
      by (apply list_lookup_insert_eq; lia).
    rewrite take_insert_ge by lia.
    rewrite drop_insert_lt by lia.
    rewrite <- app_assoc. cbn [app].
    replace (i + S k)%nat with (S i + k)%nat by lia. done.
Qed.

(** The second loop squares [k] entries in place. *)
Lemma square_loop_spec k : forall i s,
  i + k <= length (_omegas s) ->
  square_loop k i s =
  Some (set_omegas (take i (_omegas s)
                    ++ ((fun w => w * w) <$> take k (drop i (_omegas s)))
                    ++ drop (i + k) (_omegas s)) s).
Proof.
  induction k as [|k IH]; intros i s Ho.
  - rewrite take_0, Nat.add_0_r. cbn. rewrite take_drop. by destruct s.
  - cbn [square_loop].
    destruct (lookup_lt_is_Some_2 (_omegas s) i) as [w Hwi]; [lia|].
    rewrite Hwi. cbn [mbind option_bind].
    rewrite IH; cbn [_omegas set_omegas]; rewrite ?length_insert; try lia.
    rewrite (drop_S _ _ _ Hwi), firstn_cons. cbn [fmap list_fmap].
    rewrite (take_S_r (<[i:=w * w]> (_omegas s)) i (w * w))
      by (apply list_lookup_insert_eq; lia).
    rewrite take_insert_ge by lia.
    rewrite drop_insert_lt by lia.
    rewrite drop_insert_lt by lia.
    rewrite <- app_assoc. cbn [app].
    replace (i + S k)%nat with (S i + k)%nat by lia. done.
Qed.

(** [setMotors] in closed form, for a command array and a buffer that
    hold at least [_nmotors] entries. *)
Lemma setMotors_spec motorvals s :
  let n := Z.to_nat (_nmotors s) in
  n <= length motorvals ->
  n <= length (_omegas s) ->
  let ws := rad_per_sec V <$> take n motorvals in
  let tail := drop n (_omegas s) in
  let sq := ((fun w => w * w) <$> ws) ++ tail in
  setMotors V motorvals s =
  Some (mkState (_x s) (_nmotors s) sq (_airborne s)
                (dsum ws * b V)
                (b V * u2 V sq) (b V * u3 V sq) (d V * u4 V sq)
                (omega V (ws ++ tail))).
Proof.
  intros n Hc Ho ws tail sq. unfold setMotors. fold n.
  rewrite convert_loop_spec by (cbn; lia).
  rewrite take_0, drop_0. cbn [app Nat.add mbind option_bind].
  fold ws. fold tail.
  assert (Hws : length ws = n).
  { unfold ws. rewrite length_fmap, length_take. lia. }
  rewrite square_loop_spec by (cbn; rewrite length_app; lia).
  cbn [mbind option_bind set_U1 set_U2 set_U3 set_U4 set_Omega set_omegas
       _omegas _U1 _x _nmotors _airborne _U2 _U3 _U4 _Omega Nat.add].
  rewrite take_0, drop_0. cbn [app].
  rewrite take_app_length', drop_app_length' by done.
  reflexivity.
Qed.

(** [setMotors] reads no command beyond the first [_nmotors]. *)
Lemma convert_loop_take k : forall motorvals i s,
  convert_loop V motorvals k i s
  = convert_loop V (take (i + k) motorvals) k i s.
Proof.
  induction k as [|k IH]; intros motorvals i s; [done|].
  cbn [convert_loop].
  rewrite (lookup_take_lt motorvals (i + S k) i) by lia.
  destruct (motorvals !! i) as [c|]; [|done].
  destruct (_omegas s !! i) as [w|]; [|done].
  cbn [mbind option_bind].
  rewrite (IH motorvals), (IH (take _ _)).
  rewrite take_take. do 2 f_equal. lia.
Qed.

Lemma setMotors_take motorvals s :
  setMotors V motorvals s
  = setMotors V (take (Z.to_nat (_nmotors s)) motorvals) s.
Proof.
  unfold setMotors. by rewrite convert_loop_take.
Qed.

(** Neither loop, and so no part of [setMotors], writes [_x],
    [_nmotors] or [_airborne]. *)
Lemma setMotors_frame motorvals s s' :
  setMotors V motorvals s = Some s' ->
  _x s' = _x s /\ _nmotors s' = _nmotors s /\ _airborne s' = _airborne s /\
  length (_omegas s') = length (_omegas s).
Proof.
  unfold setMotors.
  destruct (convert_loop _ _ _ _ _) as [s1|] eqn:H1; [|discriminate].
  cbn [mbind option_bind].
  destruct (square_loop _ _ _) as [s2|] eqn:H2; [|discriminate].
  cbn [mbind option_bind]. intros [= <-].
  apply convert_loop_frame in H1 as [F1 L1].
  apply square_loop_frame in H2 as (F2 & _ & L2).
  unfold rest_of_omegas in *. cbn in *.
  simplify_eq. rewrite L2, L1. repeat split; congruence.
Qed.

(** [update] writes [_x] and nothing else. *)
Lemma update_frame dt s :
  forces (update V dt s) = forces s /\
  _nmotors (update V dt s) = _nmotors s /\
  _omegas (update V dt s) = _omegas s /\
  _airborne (update V dt s) = _airborne s.
Proof. repeat split. Qed.

(** [dt] is a parameter of [update] that its body never mentions. *)
Lemma update_dt_unused dt dt' s : update V dt s = update V dt' s.
Proof. reflexivity. Qed.

Lemma init_frame p r a s :
  forces (init p r a s) = forces s /\
  _nmotors (init p r a s) = _nmotors s /\
  _omegas (init p r a s) = _omegas s /\
  _airborne (init p r a s) = a.
Proof. repeat split. Qed.

(** A list with twelve entries is a list of twelve entries. *)
Lemma length_12_inv (xs : list D) :
  length xs = 12%nat ->
  exists x1 x2 x3 x4 x5 x6 x7 x8 x9 x10 x11 x12,
    xs = [x1; x2; x3; x4; x5; x6; x7; x8; x9; x10; x11; x12].
Proof.
  intros H.
  do 12 (destruct xs as [|? xs]; [discriminate H|]).
  destruct xs; [|discriminate H]. by repeat eexists.
Qed.

(** After [init] the vector holds the pose and six zeros. *)
Lemma init_x p r a s :
  length (_x s) = 12%nat ->
  _x (init p r a s)
  = [a0 p; dzero; a1 p; dzero; a2 p; dzero;
     a0 r; dzero; a1 r; dzero; a2 r; dzero].
Proof.
  destruct s as [xs n o ab U1 U2 U3 U4 Om]. cbn [_x].
  intros H. apply length_12_inv in H as (?&?&?&?&?&?&?&?&?&?&?&?&->).
  reflexivity.
Qed.

(** What [update] leaves in [_x]: the first nine entries are the
    right-hand sides read from the old vector; the tenth is computed from
    the roll rate this call has already overwritten, the twelfth from the
    overwritten roll and pitch rates. *)
Lemma update_x dt s :
  length (_x s) = 12%nat ->
  let new8 := x s 12 * x s 10 * (Iy V - Iz V) / Ix V
              - Jr V / Ix V * x s 10 * _Omega s + l V / Ix V * _U2 s in
  let new10 := x s 12 * new8 * (Iz V - Ix V) / Iy V
               + Jr V / Iy V * new8 * _Omega s + l V / Iy V * _U3 s in
  let new12 := new10 * new8 * (Ix V - Iy V) / Iz V + l V / Iz V * _U4 s in
  _x (update V dt s) = take 9 (derivative V s) ++ [new10; x s 12; new12].
Proof.
  destruct s as [xs n o ab U1 U2 U3 U4 Om]. cbn [_x].
  intros H. apply length_12_inv in H as (?&?&?&?&?&?&?&?&?&?&?&?&->).
  vm_compute. reflexivity.
Qed.

Lemma update_length dt s :
  length (_x s) = 12%nat -> length (_x (update V dt s)) = 12%nat.
Proof. intros H. by rewrite update_x. Qed.

(** *** The flag [_airborne] is written by [init] and read by nothing *)

Lemma convert_loop_airborne a motorvals k : forall i s,
  convert_loop V motorvals k i (set_airborne a s)
  = set_airborne a <$> convert_loop V motorvals k i s.
Proof.
  induction k as [|k IH]; intros i s; [done|].
  cbn [convert_loop _omegas set_airborne].
  destruct (motorvals !! i) as [c|]; [|done].
  destruct (_omegas s !! i) as [w|]; [|done].
  cbn [mbind option_bind]. rewrite <- IH. reflexivity.
Qed.

Lemma square_loop_airborne a k : forall i s,
  square_loop k i (set_airborne a s)
  = set_airborne a <$> square_loop k i s.
Proof.
  induction k as [|k IH]; intros i s; [done|].
  cbn [square_loop _omegas set_airborne].
  destruct (_omegas s !! i) as [w|]; [|done].
  cbn [mbind option_bind]. rewrite <- IH. reflexivity.
Qed.

Lemma setMotors_airborne a motorvals s :
  setMotors V motorvals (set_airborne a s)
  = set_airborne a <$> setMotors V motorvals s.
Proof.
  unfold setMotors. cbn [_nmotors set_airborne].
  change (set_U1 dzero (set_airborne a s))
    with (set_airborne a (set_U1 dzero s)).
  rewrite convert_loop_airborne.
  destruct (convert_loop _ _ _ _ _) as [s1|]; [|done].
  cbn [fmap option_fmap option_map mbind option_bind].
  match goal with
  | |- context [square_loop ?n 0 ?t] =>
      match t with
      | context [set_airborne a s1] =>
          change t with (set_airborne a
            (set_Omega (omega V (_omegas (set_U1 (_U1 s1 * b V) s1)))
               (set_U1 (_U1 s1 * b V) s1)))
      end
  end.
  rewrite square_loop_airborne.
  destruct (square_loop _ _ _) as [s2|]; done.
Qed.

Lemma update_airborne a dt s :
  update V dt (set_airborne a s) = set_airborne a (update V dt s).
Proof. reflexivity. Qed.

Lemma run_CallUpdate dt rest s :
  run V (CallUpdate dt :: rest) s = run V rest (update V dt s).
Proof. reflexivity. Qed.

Lemma run_CallSetMotors motorvals rest s :
  run V (CallSetMotors motorvals :: rest) s
  = setMotors V motorvals s ≫= run V rest.
Proof. reflexivity. Qed.

Lemma run_CallGetState av ea v p rest s :
  run V (CallGetState av ea v p :: rest) s
  = run V rest s ≫= λ r, Some (r.1, (av, ea, v, p) :: r.2).
Proof. cbn. by destruct (run V rest s) as [[]|]. Qed.

Lemma run_airborne a calls : forall s,
  run V calls (set_airborne a s) = with_airborne a <$> run V calls s.
Proof.
  induction calls as [|c calls IH]; intros s; [done|].
  destruct c as [motorvals|dt|av ea v p].
  - rewrite !run_CallSetMotors, setMotors_airborne.
    destruct (setMotors V motorvals s) as [s'|]; [|done].
    apply IH.
  - rewrite !run_CallUpdate, update_airborne. apply IH.
  - rewrite !run_CallGetState, IH.
    by destruct (run V calls s) as [[s'' outs]|].
Qed.

Lemma observable_airborne a (r : State D * list (@Outputs D)) :
  observable (with_airborne a r) = observable r.
Proof. by destruct r. Qed.

End Facts.

(** ** Facts over the reals *)

Local Open Scope R_scope.

#[local] Existing Instance D_inhabited.

(** Exposes the operations of [R] behind the generic ones. *)
Ltac to_R :=
  cbn [of_int lit dadd dsub dmul ddiv dneg dcos dsin R_DoubleOps] in *.

(** The constants of the class, read as reals. *)
Remark g_R : g = 9.80665.
Proof. unfold g. to_R. unfold Q2R. cbn. lra. Qed.

Remark pi_R : pi = 3.14159.
Proof. unfold pi. to_R. unfold Q2R. cbn. lra. Qed.

(** The constant of the class lies below the number pi: the eight first
    terms of the series for [2 * atan (1/3) + atan (1/7)] already exceed
    [3.14159 / 4]. *)
Remark pi_below_PI : 3.14159 < PI.
Proof.
  pose proof (PI_2_3_7_ineq 3) as [H _].
  assert (3.14159 / 4 < sum_f_R0 (tg_alt PI_2_3_7_tg) (S (2 * 3))); [|lra].
  clear H. unfold sum_f_R0, tg_alt, PI_2_3_7_tg, Ratan_seq. simpl. lra.
Qed.

Lemma foldl_Rplus (ws : list R) :
  forall a, foldl Rplus a ws = a + foldr Rplus 0 ws.
Proof.
  induction ws as [|w ws IH]; intros a; cbn; [lra|]. rewrite IH. lra.
Qed.

(** Over the reals the accumulation of [setMotors] is the sum. *)
Lemma dsum_R (ws : list R) : dsum ws = foldr Rplus 0 ws.
Proof. unfold dsum. rewrite foldl_Rplus. to_R. cbn. lra. Qed.

Lemma sum_zeros o : Forall (eq 0) o -> foldr Rplus 0 o = 0.
Proof. induction 1 as [|w o <- _ IH]; cbn; [done|]. rewrite IH. lra. Qed.

Lemma lincomb_zeros k : forall o, Forall (eq 0) o -> lincomb k o = 0.
Proof.
  unfold lincomb.
  induction k as [|a k IH]; intros o Ho; [done|].
  destruct Ho as [|w o <- Ho]; [done|]. cbn. rewrite IH by done. lra.
Qed.

Lemma linear_zeros f o : linear f -> Forall (eq 0) o -> f o = 0.
Proof. intros [k Hk] Ho. rewrite Hk. by apply lincomb_zeros. Qed.

Lemma Forall_zero_fmap (f : R -> R) o :
  f 0 = 0 -> Forall (eq 0) o -> Forall (eq 0) (f <$> o).
Proof.
  intros Hf Ho.
  induction Ho as [|w o <- _ IH]; constructor; [by rewrite Hf|done].
Qed.

(** The mixing functions of [quad] are linear combinations. *)
Lemma quad_linear :
  linear (omega quad) /\ linear (u2 quad) /\
  linear (u3 quad) /\ linear (u4 quad).
Proof.
  assert (H4 : forall (k0 k1 k2 k3 : R) (f : list R -> R),
    (forall o, f o = k0 * o !!! 0%nat + k1 * o !!! 1%nat
                     + k2 * o !!! 2%nat + k3 * o !!! 3%nat) ->
    linear f).
  { intros k0 k1 k2 k3 f Hf. exists [k0; k1; k2; k3]. intros o.
    rewrite Hf. unfold lincomb.
    destruct o as [|o0 [|o1 [|o2 [|o3 o]]]]; cbn; lra. }
  repeat split.
  - apply (H4 (-1) 1 (-1) 1). intros o. cbn. to_R. lra.
  - apply (H4 0 (-1) 0 1). intros o. cbn. to_R. lra.
  - apply (H4 (-1) 0 1 0). intros o. cbn. to_R. lra.
  - apply (H4 (-1) 1 (-1) 1). intros o. cbn. to_R. lra.
Qed.

(** ** The claims *)

(** C1.  The claim: for every state and every [dt > 0], [update dt] yields
    [state + derivative(state) * dt].  The code never mentions [dt], so
    every [dt] gives the same result, and it stores the derivative itself.
    At [parked] (at rest at [x = 1], no thrust) and [dt = 1/2] the explicit
    step keeps [x = 1], while [update] overwrites the position with the
    velocity, 0. *)
Theorem update_is_not_euler_step :
  (forall dt : R, update quad dt parked = update quad (1/2) parked) /\
  x (update quad (1/2) parked) 1 = 0 /\
  x (euler_step quad (1/2) parked) 1 = 1 /\
  update quad (1/2) parked <> euler_step quad (1/2) parked.
Proof.
  assert (H1 : x (update quad (1/2) parked) 1 = 0).
  { unfold x. rewrite update_x by reflexivity. reflexivity. }
  assert (H2 : x (euler_step quad (1/2) parked) 1 = 1).
  { unfold x, euler_step. cbn. lra. }
  split; [intros dt; apply update_dt_unused|].
  split; [done|split; [done|]].
  intros E. rewrite E, H2 in H1. lra.
Qed.

(** C2.  The claim: after [init p r airborne], [getState] hands out [p],
    [r] and zero velocities, filling its four output arrays from the state
    vector.  The body of [getState] is empty: after [init] with position
    [(1, 2, 3)] the four arrays still hold what the caller put there, here
    [(7, 7, 7)], although the state holds the pose. *)
Theorem getState_leaves_outputs :
  (getState (init (Arr3 1 2 3) (Arr3 0 0 0) false fresh4)
            (Arr3 7 7 7) (Arr3 7 7 7) (Arr3 7 7 7) (Arr3 7 7 7)).2
  = (Arr3 7 7 7, Arr3 7 7 7, Arr3 7 7 7, Arr3 7 7 7) /\
  _x (init (Arr3 1 2 3) (Arr3 0 0 0) false fresh4)
  = [1; 0; 2; 0; 3; 0; 0; 0; 0; 0; 0; 0] /\
  Arr3 7 7 7 <> Arr3 1 2 3.
Proof.
  split; [reflexivity|split; [reflexivity|]]. intros [= H _ _]. lra.
Qed.

(** C3, as stated, fails on two counts.  The conversion constant of the
    class is the literal 3.14159, which is below the number pi: with the
    commands [1, 0, 0, 0] on an object that counts four motors the code
    stores [U1 = 0.007853975], not [b * 15000 * PI / 30].  And the motor
    count of the constructor is not the count the loops use: on the object
    constructed with 4 over a zeroed [_nmotors], the same commands give
    [U1 = 0], while the formula of the claim is not 0. *)
Lemma setMotors_mixing_as_stated_fails :
  (exists s', setMotors quad [1; 0; 0; 0] fresh4 = Some s' /\
     _U1 s' = 0.007853975 /\
     _U1 s' <> b quad * foldr Rplus 0
                 ((fun ci => ci * 15000 * PI / 30) <$> [1; 0; 0; 0])) /\
  (exists s s', MultirotorDynamics 0 (fun _ => 0) 4 = Some s /\
     setMotors quad [1; 0; 0; 0] s = Some s' /\
     _U1 s' = 0 /\
     b quad * foldr Rplus 0
       ((fun ci => ci * 15000 * 3.14159 / 30) <$> [1; 0; 0; 0]) <> 0).
Proof.
  pose proof pi_below_PI as HPI. split.
  - eexists. split; [apply setMotors_spec; cbn; lia|].
    cbn. unfold dsum, rad_per_sec. simpl. to_R. split; lra.
  - do 2 eexists. split; [reflexivity|]. split; [reflexivity|].
    cbn. to_R. split; lra.
Qed.

(** C3, amended.  On an object whose stored motor count and speed buffer
    size are [n], for every command array [c] of [n] entries, [setMotors c]
    returns and stores [U1 = b * sum w], [Omega = omega w],
    [U2 = b * u2 sq], [U3 = b * u3 sq], [U4 = d * u4 sq], where
    [w_i = c_i * maxrpm * 3.14159 / 30] (the constant [pi] of the class)
    and [sq_i = w_i * w_i]; if all commands are 0 and the four mixing
    functions are linear combinations, then [U1] to [U4] and [Omega] are 0.
    (The equations hold for all commands, in particular for those in
    [0, 1].) *)
Theorem setMotors_mixing (V : Vehicle R) (c : list R) (s : State R) :
  _nmotors s = Z.of_nat (length c) ->
  length (_omegas s) = length c ->
  let w := (fun ci => ci * IZR (Z.of_N (maxrpm V)) * 3.14159 / 30) <$> c in
  let sq := (fun wi => wi * wi) <$> w in
  exists s', setMotors V c s = Some s' /\
    _U1 s' = b V * foldr Rplus 0 w /\
    _Omega s' = omega V w /\
    _U2 s' = b V * u2 V sq /\
    _U3 s' = b V * u3 V sq /\
    _U4 s' = d V * u4 V sq /\
    (Forall (eq 0) c ->
     linear (omega V) -> linear (u2 V) -> linear (u3 V) -> linear (u4 V) ->
     _U1 s' = 0 /\ _U2 s' = 0 /\ _U3 s' = 0 /\ _U4 s' = 0 /\ _Omega s' = 0).
Proof.
  intros Hn Ho w sq.
  assert (Hk : Z.to_nat (_nmotors s) = length c) by lia.
  pose proof (setMotors_spec V c s) as E. cbn zeta in E.
  rewrite Hk in E. specialize (E ltac:(lia) ltac:(lia)).
  rewrite firstn_all, drop_ge, !app_nil_r in E by lia.
  assert (Hw0 : rad_per_sec V <$> c = w).
  { apply list_fmap_ext. intros i ci _. unfold rad_per_sec.
    rewrite pi_R. reflexivity. }
  rewrite Hw0 in E.
  eexists. split; [exact E|]. cbn [_U1 _U2 _U3 _U4 _Omega].
  change ((fun w0 : R => dmul w0 w0) <$> w) with sq.
  rewrite dsum_R.
  split; [apply Rmult_comm|]. do 4 (split; [reflexivity|]).
  intros Hc L0 L2 L3 L4.
  assert (Hw : Forall (eq 0) w).
  { apply Forall_zero_fmap; [unfold Rdiv; ring|done]. }
  assert (Hsq : Forall (eq 0) sq).
  { apply Forall_zero_fmap; [ring|done]. }
  rewrite (sum_zeros w Hw), (linear_zeros _ _ L2 Hsq),
    (linear_zeros _ _ L3 Hsq), (linear_zeros _ _ L4 Hsq),
    (linear_zeros _ _ L0 Hw).
  to_R. repeat split; lra.
Qed.

Lemma setMotors_mixing_witness :
  (exists s', setMotors quad [1; 0; 0; 0] fresh4 = Some s' /\
     _U1 s' = 0.007853975 /\ _Omega s' = - 1570.795 /\
     _U2 s' = 0 /\ _U3 s' = - 12.336984660125 /\
     _U4 s' = - 4.93479386405) /\
  (exists s', setMotors quad [0; 0; 0; 0] fresh4 = Some s' /\
     _U1 s' = 0 /\ _U2 s' = 0 /\ _U3 s' = 0 /\ _U4 s' = 0 /\ _Omega s' = 0).
Proof.
  split.
  - destruct (setMotors_mixing quad [1; 0; 0; 0] fresh4 eq_refl eq_refl)
      as (s' & E & H1 & HO & H2 & H3 & H4 & _).
    exists s'. split; [exact E|].
    rewrite H1, HO, H2, H3, H4. cbn. to_R. unfold Q2R. cbn.
    repeat split; lra.
  - destruct (setMotors_mixing quad [0; 0; 0; 0] fresh4 eq_refl eq_refl)
      as (s' & E & _ & _ & _ & _ & _ & Hzero).
    exists s'. split; [exact E|].
    destruct quad_linear as (L0 & L2 & L3 & L4).
    apply Hzero; [repeat constructor|done..].
Defined.

(** C4.  The claim: every right-hand side of [update] is read from the
    state as it was when the call began.  The assignments are made in
    place and in order, so the pitch-rate line reads the roll rate that the
    roll-rate line has just stored.  At [spinning] (roll rate 1, yaw rate
    1) the simultaneous assignment gives the pitch rate
    [1 * 1 * (Iz - Ix) / Iy = 1/2]; [update] stores 0. *)
Theorem update_reads_overwritten_rates :
  x (update quad (1/100) spinning) 10 = 0 /\
  x (update_simultaneous quad spinning) 10 = 1/2 /\
  update quad (1/100) spinning <> update_simultaneous quad spinning.
Proof.
  assert (H1 : x (update quad (1/100) spinning) 10 = 0).
  { unfold x. rewrite update_x by reflexivity. cbn. to_R. lra. }
  assert (H2 : x (update_simultaneous quad spinning) 10 = 1/2).
  { unfold x, update_simultaneous. cbn. to_R. lra. }
  split; [done|split; [done|]].
  intros E. rewrite E, H2 in H1. lra.
Qed.

(** C5, as stated, fails: a command array of five entries for a count of
    four is accepted; the call returns and has changed [U1]. *)
Lemma setMotors_accepts_wrong_length :
  exists s', length [1; 0; 0; 0; 0] <> Z.to_nat (_nmotors fresh4) /\
    setMotors quad [1; 0; 0; 0; 0] fresh4 = Some s' /\
    _U1 s' <> _U1 fresh4.
Proof.
  eexists. split; [cbn; lia|]. split.
  - apply setMotors_spec; cbn; lia.
  - cbn. unfold dsum, rad_per_sec. simpl. to_R. lra.
Qed.

(** C5, amended.  [setMotors] checks neither the length of the command
    array nor its values and reports no error: in every arithmetic,
    whatever the values, if the array and the speed buffer hold at least
    [n] entries ([n] the stored motor count) the call returns; it has read
    the first [n] commands only, has overwritten [U1] to [U4] and [Omega]
    with their mixing, and has left the 12-state vector as it was. *)
Theorem setMotors_unchecked {D : Type} {ops : DoubleOps D}
    (V : Vehicle D) (motorvals : list D) (s : State D) :
  (Z.to_nat (_nmotors s) <= length motorvals)%nat ->
  (Z.to_nat (_nmotors s) <= length (_omegas s))%nat ->
  let n := Z.to_nat (_nmotors s) in
  let ws := rad_per_sec V <$> take n motorvals in
  let sq := ((fun w => dmul w w) <$> ws) ++ drop n (_omegas s) in
  exists s', setMotors V motorvals s = Some s' /\
    setMotors V (take n motorvals) s = Some s' /\
    _x s' = _x s /\
    forces s' = (dmul (dsum ws) (b V),
                 dmul (b V) (u2 V sq), dmul (b V) (u3 V sq),
                 dmul (d V) (u4 V sq),
                 omega V (ws ++ drop n (_omegas s))).
Proof.
  intros Hc Ho n ws sq.
  pose proof (setMotors_spec V motorvals s Hc Ho) as E.
  eexists. split; [exact E|].
  split; [unfold n; by rewrite <- setMotors_take|].
  split; reflexivity.
Qed.

Lemma setMotors_unchecked_witness :
  exists s', setMotors quad [1; 0; 0; 0; 0] fresh4 = Some s' /\
    setMotors quad [1; 0; 0; 0] fresh4 = Some s' /\
    _x s' = _x fresh4.
Proof.
  destruct (setMotors_unchecked quad [1; 0; 0; 0; 0] fresh4)
    as (s' & E1 & E2 & Hx & _); [cbn; lia | cbn; lia |].
  exists s'. repeat split; assumption.
Defined.

(** C6.  The claim: on the ground with zero thrust, one [update] with
    [dt = 0.01] gives the vertical velocity [- g * dt] and leaves the
    horizontal position and velocity as they were.  The code, started at
    position [(1, 2, 3)], stores the acceleration [- g] itself as vertical
    velocity and overwrites the horizontal positions 1 and 2 with the
    velocities, 0; only the horizontal velocities stay 0. *)
Theorem grounded_step_is_not_scaled :
  setMotors quad [0; 0; 0; 0] grounded = Some idle /\
  x (update quad (1/100) idle) 6 = - g /\
  - g <> - g * (1/100) /\
  x grounded 1 = 1 /\ x (update quad (1/100) idle) 1 = 0 /\
  x grounded 3 = 2 /\ x (update quad (1/100) idle) 3 = 0 /\
  x (update quad (1/100) idle) 2 = 0 /\ x (update quad (1/100) idle) 4 = 0.
Proof.
  split.
  - rewrite setMotors_spec by (cbn; lia). unfold idle.
    cbn. unfold dsum, rad_per_sec. simpl. to_R.
    assert (H0 : 0 * 15000 * 3.14159 / 30 = 0) by lra.
    rewrite !H0.
    replace (0 * 0) with 0 by lra.
    replace (0 + 0 + 0 + 0 + 0) with 0 by lra.
    replace (0 + 0 - 0 - 0) with 0 by lra.
    replace (0 - 0) with 0 by lra.
    rewrite !Rmult_0_r, Rmult_0_l. reflexivity.
  - unfold x. rewrite update_x by reflexivity. rewrite g_R.
    cbn. to_R. rewrite cos_0, sin_0. repeat split; lra.
Qed.

(** C7.  The claim: construction with motor count [n] stores [n].  The
    constructor sizes the speed buffer with [nmotors] and assigns nothing
    to [_nmotors], which keeps whatever value it had: constructed with 4
    over a zeroed member, the object counts 0 motors, and [setMotors] with
    four full commands converts none of them. *)
Theorem constructor_leaves_nmotors :
  (forall junk : Z,
     _nmotors <$> MultirotorDynamics junk (fun _ => 0) 4 = Some junk) /\
  exists s s',
    MultirotorDynamics 0 (fun _ => 0) 4 = Some s /\
    length (_omegas s) = 4%nat /\ _nmotors s = 0%Z /\
    setMotors quad [1; 1; 1; 1] s = Some s' /\
    _omegas s' = [0; 0; 0; 0] /\ _U1 s' = 0.
Proof.
  split; [reflexivity|].
  do 2 eexists. split; [reflexivity|]. split; [reflexivity|].
  split; [reflexivity|]. split; [reflexivity|].
  split; [reflexivity|]. cbn. to_R. lra.
Qed.

(** C8.  [init] is idempotent: on an object whose state vector has its
    twelve components, a second call with the same arguments changes
    nothing, and the vector after [init] is made of the given position and
    rotation and of six zeros, whatever it held before. *)
Theorem init_idempotent {D : Type} {ops : DoubleOps D}
    (p r : array3 D) (a : bool) (s : State D) :
  length (_x s) = 12%nat ->
  init p r a (init p r a s) = init p r a s /\
  _x (init p r a s)
  = [a0 p; dzero; a1 p; dzero; a2 p; dzero;
     a0 r; dzero; a1 r; dzero; a2 r; dzero].
Proof.
  intros H. split; [|by apply init_x].
  destruct s as [xs n o ab U1 U2 U3 U4 Om]. cbn [_x] in H.
  apply length_12_inv in H as (?&?&?&?&?&?&?&?&?&?&?&?&->).
  vm_compute. reflexivity.
Qed.

Lemma init_idempotent_witness :
  init (Arr3 1 2 3) (Arr3 0 0 1) true
       (init (Arr3 1 2 3) (Arr3 0 0 1) true spinning)
  = init (Arr3 1 2 3) (Arr3 0 0 1) true spinning /\
  _x (init (Arr3 1 2 3) (Arr3 0 0 1) true spinning)
  = [1; 0; 2; 0; 3; 0; 0; 0; 0; 0; 1; 0].
Proof.
  exact (init_idempotent (Arr3 1 2 3) (Arr3 0 0 1) true spinning eq_refl).
Defined.

(** C9.  The flag given to [init] is stored and never read: two runs that
    differ only in it and then make the same calls of [setMotors],
    [update] and [getState] both stop at an access out of bounds or both
    complete, with the same state vector, the same forces and the same
    outputs of [getState]. *)
Theorem airborne_is_never_read {D : Type} {ops : DoubleOps D}
    (V : Vehicle D) (p r : array3 D) (a1 a2 : bool)
    (calls : list Call) (s : State D) :
  observable <$> run V calls (init p r a1 s)
  = observable <$> run V calls (init p r a2 s).
Proof.
  change (init p r a1 s) with (set_airborne a1 (init p r a2 s)).
  rewrite run_airborne.
  destruct (run V calls (init p r a2 s)) as [res|]; [|done].
  cbn [fmap option_fmap option_map]. by rewrite observable_airborne.
Qed.

(** C10.  [setMotors], whenever it returns, has not written the state
    vector (nor the motor count or the flag); [update], on every object,
    writes the state vector only: it leaves [U1] to [U4], [Omega], the
    count, the buffer and the flag as they were.  Nor does [init] write
    the forces, and [getState] writes nothing. *)
Theorem frame_setMotors_update {D : Type} {ops : DoubleOps D}
    (V : Vehicle D) (motorvals : list D) (dt : D)
    (p r av ea v pos : array3 D) (a : bool) (s : State D) :
  (forall s' : State D,
     setMotors V motorvals s = Some s' ->
     _x s' = _x s /\ _nmotors s' = _nmotors s /\
     _airborne s' = _airborne s) /\
  (forces (update V dt s) = forces s /\
   _nmotors (update V dt s) = _nmotors s /\
   _omegas (update V dt s) = _omegas s /\
   _airborne (update V dt s) = _airborne s) /\
  forces (init p r a s) = forces s /\
  (getState s av ea v pos).1 = s.
Proof.
  split.
  - intros s' E. apply setMotors_frame in E as (Hx & Hn & Ha & _). done.
  - split; [apply update_frame|]. split; reflexivity.
Qed.

Lemma frame_setMotors_update_witness :
  (exists s', setMotors quad [1; 1; 1; 1] fresh4 = Some s' /\
     _x s' = _x fresh4 /\ forces s' <> forces fresh4) /\
  (exists s0, MultirotorDynamics 7 (fun _ => 0) 4 = Some s0 /\
     setMotors quad [1; 1; 1; 1] s0 = None /\
     forces (update quad (1/100) s0) = forces s0).
Proof.
  split.
  - eexists. split; [apply setMotors_spec; cbn; lia|]. split.
    + refine (proj1 (proj1 (frame_setMotors_update quad [1; 1; 1; 1] (1/100)
                (Arr3 0 0 0) (Arr3 0 0 0) (Arr3 0 0 0) (Arr3 0 0 0)
                (Arr3 0 0 0) (Arr3 0 0 0) false fresh4) _ _)).
      apply setMotors_spec; cbn; lia.
    + intros [= H _]. revert H. cbn. unfold dsum, rad_per_sec. simpl.
      to_R. lra.
  - eexists. split; [reflexivity|]. split; [reflexivity|].
    refine (proj1 (proj1 (proj2 (frame_setMotors_update quad [1; 1; 1; 1]
              (1/100) (Arr3 0 0 0) (Arr3 0 0 0) (Arr3 0 0 0) (Arr3 0 0 0)
              (Arr3 0 0 0) (Arr3 0 0 0) false _)))).
Defined.

(** ** Further properties of the class, in every arithmetic *)

Section MoreFacts.

Context {D : Type} {ops : DoubleOps D}.
Variable V : Vehicle D.

Local Open Scope double_scope.

#[local] Existing Instance D_inhabited.

(** The first loop leaves the bounds of the command array or of the speed
    buffer as soon as one of them has fewer than [i + k] entries. *)
Lemma convert_loop_out_of_bounds motorvals k : forall i s,
  (length motorvals < i + k)%nat \/ (length (_omegas s) < i + k)%nat ->
  (i <= length motorvals)%nat -> (i <= length (_omegas s))%nat ->
  convert_loop V motorvals k i s = None.
Proof.
  induction k as [|k IH]; intros i s Hshort Hc Ho; [lia|].
  cbn [convert_loop].
  destruct (motorvals !! i) as [c|] eqn:Ec; [|done].
  destruct (_omegas s !! i) as [w|] eqn:Ew; [|done].
  cbn [mbind option_bind].
  apply lookup_lt_Some in Ec. apply lookup_lt_Some in Ew.
  apply IH; cbn [_omegas set_omegas set_U1]; rewrite ?length_insert; lia.
Qed.

Lemma setMotors_out_of_bounds motorvals s :
  (length motorvals < Z.to_nat (_nmotors s))%nat \/
  (length (_omegas s) < Z.to_nat (_nmotors s))%nat ->
  setMotors V motorvals s = None.
Proof.
  intros H. unfold setMotors.
  rewrite convert_loop_out_of_bounds; [done|exact H|lia..].
Qed.

(** A call that returns stays inside both arrays, and what it returns is
    the closed form of [setMotors_spec]. *)
Lemma setMotors_Some_inv motorvals s s' :
  setMotors V motorvals s = Some s' ->
  let n := Z.to_nat (_nmotors s) in
  let ws := rad_per_sec V <$> take n motorvals in
  let sq := ((fun w => w * w) <$> ws) ++ drop n (_omegas s) in
  (n <= length motorvals)%nat /\ (n <= length (_omegas s))%nat /\
  s' = mkState (_x s) (_nmotors s) sq (_airborne s)
               (dsum ws * b V)
               (b V * u2 V sq) (b V * u3 V sq) (d V * u4 V sq)
               (omega V (ws ++ drop n (_omegas s))).
Proof.
  intros E n ws sq.
  destruct (le_lt_dec n (length motorvals)) as [Hc|Hc];
    [|by rewrite setMotors_out_of_bounds in E by (left; exact Hc)].
  destruct (le_lt_dec n (length (_omegas s))) as [Ho|Ho];
    [|by rewrite setMotors_out_of_bounds in E by (right; exact Ho)].
  split; [done|]. split; [done|].
  rewrite (setMotors_spec V motorvals s Hc Ho) in E. by injection E as <-.
Qed.

End MoreFacts.

Local Open Scope double_scope.

(** X1.  What [update] stores in a vector of twelve components, in terms
    of the object [s] before and the object [s'] after the call: every
    position and angle receives the old rate that follows it; the three
    linear velocities and the roll rate receive their right-hand sides read
    from [s]; the pitch rate is computed with the roll rate of [s'], and
    the yaw rate with the roll and pitch rates of [s']. *)
Theorem update_stores {D : Type} {ops : DoubleOps D}
    (V : Vehicle D) (dt : D) (s : State D) :
  length (_x s) = 12%nat ->
  let s' := update V dt s in
  (x s' 1 = x s 2 /\ x s' 3 = x s 4 /\ x s' 5 = x s 6 /\
   x s' 7 = x s 8 /\ x s' 9 = x s 10 /\ x s' 11 = x s 12) /\
  x s' 2 = (dcos (x s 7) * dsin (x s 9) * dcos (x s 11)
            + dsin (x s 7) * dsin (x s 11)) * _U1 s / m V /\
  x s' 4 = (dcos (x s 7) * dsin (x s 9) * dsin (x s 11)
            + dsin (x s 7) * dcos (x s 11)) * _U1 s / m V /\
  x s' 6 = - g + (dcos (x s 7) * dcos (x s 9)) * _U1 s / m V /\
  x s' 8 = x s 12 * x s 10 * (Iy V - Iz V) / Ix V
           - Jr V / Ix V * x s 10 * _Omega s + l V / Ix V * _U2 s /\
  x s' 10 = x s 12 * x s' 8 * (Iz V - Ix V) / Iy V
            + Jr V / Iy V * x s' 8 * _Omega s + l V / Iy V * _U3 s /\
  x s' 12 = x s' 10 * x s' 8 * (Ix V - Iy V) / Iz V + l V / Iz V * _U4 s.
Proof.
  destruct s as [xs n o ab U1 U2 U3 U4 Om]. cbn [_x].
  intros H. apply length_12_inv in H as (?&?&?&?&?&?&?&?&?&?&?&?&->).
  vm_compute. repeat split.
Qed.

Lemma update_stores_witness :
  x (update quad (1/100)%R spinning) 7 = 1%R /\
  x (update quad (1/100)%R spinning) 11 = 1%R.
Proof.
  destruct (update_stores quad (1/100)%R spinning eq_refl)
    as ((_ & _ & _ & H7 & _ & H11) & _).
  split; [exact H7|exact H11].
Defined.

(** X2.  [update] never reads the three positions: it overwrites them
    with the velocities, so two objects that differ in their positions
    only are the same object after one [update]. *)
Theorem update_forgets_position {D : Type} {ops : DoubleOps D}
    (V : Vehicle D) (dt px py pz : D) (s : State D) :
  length (_x s) = 12%nat ->
  update V dt (put 4 pz (put 2 py (put 0 px s))) = update V dt s.
Proof.
  destruct s as [xs n o ab U1 U2 U3 U4 Om]. cbn [_x].
  intros H. apply length_12_inv in H as (?&?&?&?&?&?&?&?&?&?&?&?&->).
  vm_compute. reflexivity.
Qed.

Lemma update_forgets_position_witness :
  update quad (1/100)%R (put 4 3%R (put 2 2%R (put 0 1%R spinning)))
  = update quad (1/100)%R spinning.
Proof.
  exact (update_forgets_position quad (1/100)%R 1%R 2%R 3%R spinning eq_refl).
Defined.

(** X3.  The first [update] after [init] erases the pose: whatever
    position and rotation were given, the three positions and the three
    angles are zero after it, because [init] has zeroed the rates that
    [update] copies into them. *)
Theorem update_after_init_erases_pose {D : Type} {ops : DoubleOps D}
    (V : Vehicle D) (dt : D) (p r : array3 D) (a : bool) (s : State D) :
  length (_x s) = 12%nat ->
  let s' := update V dt (init p r a s) in
  x s' 1 = dzero /\ x s' 3 = dzero /\ x s' 5 = dzero /\
  x s' 7 = dzero /\ x s' 9 = dzero /\ x s' 11 = dzero.
Proof.
  destruct s as [xs n o ab U1 U2 U3 U4 Om]. cbn [_x].
  intros H. apply length_12_inv in H as (?&?&?&?&?&?&?&?&?&?&?&?&->).
  vm_compute. repeat split.
Qed.

Lemma update_after_init_erases_pose_witness :
  x (update quad (1/100)%R
       (init (Arr3 1 2 3)%R (Arr3 0 0 1)%R true spinning)) 1
  = 0%R.
Proof.
  exact (proj1 (update_after_init_erases_pose quad (1/100)%R
                  (Arr3 1 2 3)%R (Arr3 0 0 1)%R true spinning eq_refl)).
Defined.

(** X4.  [setMotors] returns exactly when the command array and the speed
    buffer both hold at least as many entries as the stored motor count;
    otherwise one of its loops reads or writes outside an array. *)
Theorem setMotors_returns_iff {D : Type} {ops : DoubleOps D}
    (V : Vehicle D) (motorvals : list D) (s : State D) :
  is_Some (setMotors V motorvals s) <->
  (Z.to_nat (_nmotors s) <= length motorvals)%nat /\
  (Z.to_nat (_nmotors s) <= length (_omegas s))%nat.
Proof.
  split.
  - intros [s' E]. apply setMotors_Some_inv in E as (Hc & Ho & _). done.
  - intros [Hc Ho]. rewrite setMotors_spec by done. by eexists.
Qed.

(** X5.  With a stored motor count of zero or below, neither loop runs:
    any command array is accepted, even an empty one, the speed buffer is
    left as it is, and the forces are mixed from whatever the buffer
    holds. *)
Theorem setMotors_without_motors {D : Type} {ops : DoubleOps D}
    (V : Vehicle D) (motorvals : list D) (s : State D) :
  (_nmotors s <= 0)%Z ->
  setMotors V motorvals s
  = Some (mkState (_x s) (_nmotors s) (_omegas s) (_airborne s)
                  (dzero * b V)
                  (b V * u2 V (_omegas s))
                  (b V * u3 V (_omegas s))
                  (d V * u4 V (_omegas s))
                  (omega V (_omegas s))).
Proof.
  intros H. unfold setMotors.
  replace (Z.to_nat (_nmotors s)) with 0%nat by lia. reflexivity.
Qed.

Lemma setMotors_without_motors_witness :
  is_Some (setMotors quad []
             (mkState (replicate 12 0%R) (-1) [5; 6; 7; 8]%R false
                      0%R 0%R 0%R 0%R 0%R)).
Proof.
  rewrite (setMotors_without_motors quad []
             (mkState (replicate 12 0%R) (-1) [5; 6; 7; 8]%R false
                      0%R 0%R 0%R 0%R 0%R)).
  - by eexists.
  - cbn. lia.
Defined.

(** X6.  [setMotors] keeps no memory of earlier commands: it restarts
    [U1] from zero and overwrites the part of the buffer it reads, so a
    call after another call gives what it gives without the other. *)
Theorem setMotors_last_call_wins {D : Type} {ops : DoubleOps D}
    (V : Vehicle D) (c1 c2 : list D) (s s1 : State D) :
  setMotors V c1 s = Some s1 ->
  setMotors V c2 s1 = setMotors V c2 s.
Proof.
  intros E. apply setMotors_Some_inv in E as (Hc1 & Ho & ->).
  set (n := Z.to_nat (_nmotors s)) in *.
  set (ws := rad_per_sec V <$> take n c1).
  assert (Hws : length ((fun w => dmul w w) <$> ws) = n).
  { unfold ws. rewrite !length_fmap, length_take. lia. }
  destruct (le_lt_dec n (length c2)) as [Hc2|Hc2].
  - rewrite (setMotors_spec V c2 s) by done.
    rewrite setMotors_spec;
      cbn [_x _nmotors _omegas _airborne]; fold n;
      rewrite ?length_app, ?Hws; try lia.
    by rewrite drop_app_length' by done.
  - rewrite !setMotors_out_of_bounds; [done|left; exact Hc2|].
    left. exact Hc2.
Qed.

Lemma setMotors_last_call_wins_witness :
  exists s1, setMotors quad [1; 1; 1; 1]%R fresh4 = Some s1 /\
    setMotors quad [0; 0; 0; 0]%R s1 = setMotors quad [0; 0; 0; 0]%R fresh4.
Proof.
  eexists. split; [apply setMotors_spec; cbn; lia|].
  apply (setMotors_last_call_wins quad [1; 1; 1; 1]%R).
  apply setMotors_spec; cbn; lia.
Defined.

(** X7.  After [setMotors] the speed buffer has its old size; its first
    [n] entries ([n] the stored motor count) are the squares of the
    converted commands, not the speeds, and the entries from [n] on are
    untouched. *)
Theorem setMotors_buffer {D : Type} {ops : DoubleOps D}
    (V : Vehicle D) (motorvals : list D) (s s' : State D) :
  setMotors V motorvals s = Some s' ->
  length (_omegas s') = length (_omegas s) /\
  forall i : nat,
    _omegas s' !! i
    = if decide (i < Z.to_nat (_nmotors s))%nat
      then (fun c => rad_per_sec V c * rad_per_sec V c) <$> motorvals !! i
      else _omegas s !! i.
Proof.
  intros E. pose proof (setMotors_frame V _ _ _ E) as (_ & _ & _ & Hlen).
  split; [exact Hlen|]. intros i.
  apply setMotors_Some_inv in E as (Hc & Ho & ->). cbn [_omegas].
  set (n := Z.to_nat (_nmotors s)) in *.
  assert (Hws : length ((fun w => dmul w w)
                          <$> (rad_per_sec V <$> take n motorvals)) = n).
  { rewrite !length_fmap, length_take. lia. }
  case_decide as Hi.
  - rewrite lookup_app_l by lia.
    rewrite !list_lookup_fmap, lookup_take_lt by done.
    by destruct (motorvals !! i).
  - rewrite lookup_app_r by lia. rewrite Hws, lookup_drop.
    f_equal. lia.
Qed.

Lemma setMotors_buffer_witness :
  exists s', setMotors quad [1; 1; 1; 1]%R fresh4 = Some s' /\
    length (_omegas s') = 4%nat.
Proof.
  eexists. split; [apply setMotors_spec; cbn; lia|].
  refine (proj1 (setMotors_buffer quad [1; 1; 1; 1]%R fresh4 _ _)).
  apply setMotors_spec; cbn; lia.
Defined.

(** X8.  Whatever calls are made on a constructed object, its state
    vector keeps twelve components, its speed buffer keeps the size given
    to the constructor, and its motor count keeps the value it had at
    construction. *)
Theorem constructed_object_invariant {D : Type} {ops : DoubleOps D}
    (V : Vehicle D) (indet_nmotors : Z) (indet_omegas : nat -> D)
    (nmotors : Z) (s0 s : State D) :
  MultirotorDynamics indet_nmotors indet_omegas nmotors = Some s0 ->
  rtc (step V) s0 s ->
  length (_x s) = 12%nat /\
  length (_omegas s) = Z.to_nat nmotors /\
  _nmotors s = indet_nmotors.
Proof.
  intros Hnew Hrun.
  assert (H0 : length (_x s0) = 12%nat /\
               length (_omegas s0) = Z.to_nat nmotors /\
               _nmotors s0 = indet_nmotors).
  { unfold MultirotorDynamics in Hnew.
    destruct (nmotors <? 0)%Z; [discriminate|]. injection Hnew as <-.
    cbn. by rewrite length_fmap, length_seq. }
  clear Hnew. induction Hrun as [s|s1 s2 s3 Hstep _ IH]; [exact H0|].
  apply IH. destruct H0 as (Hx & Ho & Hn).
  destruct Hstep as [p r a s1|motorvals s1 s2 E|dt s1|av ea v p s1].
  - rewrite init_x by done. repeat split; done.
  - apply setMotors_frame in E as (-> & -> & _ & ->). done.
  - split; [by apply update_length|]. split; done.
  - done.
Qed.

Lemma constructed_object_invariant_witness :
  length (_x (update quad (1/100)%R
                (init (Arr3 1 2 3)%R (Arr3 0 0 0)%R false fresh4))) = 12%nat.
Proof.
  refine (proj1 (constructed_object_invariant quad 4 (fun _ => 0%R) 4
                   fresh4 _ eq_refl _)).
  eapply rtc_l;
    [apply (step_init quad (Arr3 1 2 3)%R (Arr3 0 0 0)%R false)|].
  eapply rtc_l; [apply (step_update quad (1/100)%R)|].
  apply rtc_refl.
Defined.

(** ** Further properties of the class, over the reals *)

Local Open Scope R_scope.

(** The factor that turns a command into a motor speed. *)
Lemma rad_per_sec_R (V : Vehicle R) (c : R) :
  rad_per_sec V c = c * (IZR (Z.of_N (maxrpm V)) * 3.14159 / 30).
Proof. unfold rad_per_sec. rewrite pi_R. to_R. lra. Qed.

Lemma rad_factor_nonneg (V : Vehicle R) :
  0 <= IZR (Z.of_N (maxrpm V)) * 3.14159 / 30.
Proof.
  assert (H : 0 <= IZR (Z.of_N (maxrpm V))) by (apply IZR_le; lia).
  lra.
Qed.

Lemma sum_speeds_bounds (V : Vehicle R) (cs : list R) :
  Forall (fun c => 0 <= c <= 1) cs ->
  0 <= foldr Rplus 0 (rad_per_sec V <$> cs)
    <= INR (length cs) * (IZR (Z.of_N (maxrpm V)) * 3.14159 / 30).
Proof.
  pose proof (rad_factor_nonneg V) as HK.
  induction 1 as [|c cs Hc _ IH].
  - cbn. lra.
  - cbn [fmap list_fmap foldr length]. rewrite S_INR, rad_per_sec_R. nra.
Qed.

Lemma sum_speeds_monotone (V : Vehicle R) (cs cs' : list R) :
  Forall2 Rle cs cs' ->
  foldr Rplus 0 (rad_per_sec V <$> cs)
  <= foldr Rplus 0 (rad_per_sec V <$> cs').
Proof.
  pose proof (rad_factor_nonneg V) as HK.
  induction 1 as [|c c' cs cs' Hc _ IH].
  - cbn. lra.
  - cbn [fmap list_fmap foldr]. rewrite !rad_per_sec_R. nra.
Qed.

(** X9.  With a thrust coefficient that is not negative and the commands
    it reads in [0, 1], [setMotors] stores a total thrust [U1] between 0
    and [b * n * maxrpm * pi / 30], [n] being the stored motor count. *)
Theorem setMotors_U1_bounds (V : Vehicle R) (c : list R) (s s' : State R) :
  setMotors V c s = Some s' ->
  0 <= b V ->
  Forall (fun ci => 0 <= ci <= 1) (take (Z.to_nat (_nmotors s)) c) ->
  0 <= _U1 s'
    <= b V * (INR (Z.to_nat (_nmotors s))
              * (IZR (Z.of_N (maxrpm V)) * pi / 30)).
Proof.
  intros E Hb Hc. apply setMotors_Some_inv in E as (Hn & _ & ->).
  cbn [_U1]. rewrite dsum_R, pi_R. to_R.
  pose proof (sum_speeds_bounds V _ Hc) as Hsum.
  rewrite length_take_le in Hsum by done.
  pose proof (rad_factor_nonneg V) as HK.
  assert (0 <= INR (Z.to_nat (_nmotors s))) by apply pos_INR.
  nra.
Qed.

Lemma setMotors_U1_bounds_witness :
  exists s', setMotors quad [1; 1/2; 0; 1] fresh4 = Some s' /\
    0 <= _U1 s'.
Proof.
  eexists. split; [apply setMotors_spec; cbn; lia|].
  refine (proj1 (setMotors_U1_bounds quad [1; 1/2; 0; 1] fresh4 _ _ _ _)).
  - apply setMotors_spec; cbn; lia.
  - cbn. to_R. unfold Q2R. cbn. lra.
  - cbn. repeat constructor; lra.
Defined.

(** X10.  The total thrust grows with the commands: with a thrust
    coefficient that is not negative, raising any of the commands that
    [setMotors] reads does not lower [U1]. *)
Theorem setMotors_U1_monotone (V : Vehicle R) (c c' : list R)
    (s s1 s2 : State R) :
  setMotors V c s = Some s1 ->
  setMotors V c' s = Some s2 ->
  0 <= b V ->
  Forall2 Rle (take (Z.to_nat (_nmotors s)) c)
              (take (Z.to_nat (_nmotors s)) c') ->
  _U1 s1 <= _U1 s2.
Proof.
  intros E1 E2 Hb Hcc.
  apply setMotors_Some_inv in E1 as (_ & _ & ->).
  apply setMotors_Some_inv in E2 as (_ & _ & ->).
  cbn [_U1]. rewrite !dsum_R. to_R.
  pose proof (sum_speeds_monotone V _ _ Hcc). nra.
Qed.

Lemma setMotors_U1_monotone_witness :
  exists s1 s2,
    setMotors quad [0; 0; 0; 0] fresh4 = Some s1 /\
    setMotors quad [0; 1; 0; 0] fresh4 = Some s2 /\
    _U1 s1 <= _U1 s2.
Proof.
  do 2 eexists. split; [apply setMotors_spec; cbn; lia|].
  split; [apply setMotors_spec; cbn; lia|].
  refine (setMotors_U1_monotone quad [0; 0; 0; 0] [0; 1; 0; 0] fresh4
            _ _ _ _ _ _).
  - apply setMotors_spec; cbn; lia.
  - apply setMotors_spec; cbn; lia.
  - cbn. to_R. unfold Q2R. cbn. lra.
  - cbn. repeat constructor; lra.
Defined.

(** X11.  Without thrust the attitude does not matter: for a mass that
    is not 0, if [U1] is 0 then [update] stores 0 as both horizontal
    velocities and [- 9.80665] as vertical velocity, whatever the angles
    and whatever [dt]. *)
Theorem update_without_thrust (V : Vehicle R) (dt : R) (s : State R) :
  length (_x s) = 12%nat ->
  m V <> 0 ->
  _U1 s = 0 ->
  x (update V dt s) 2 = 0 /\
  x (update V dt s) 4 = 0 /\
  x (update V dt s) 6 = - 9.80665.
Proof.
  intros H Hm HU. unfold x. rewrite update_x by done.
  destruct s as [xs n o ab U1 U2 U3 U4 Om]. cbn [_x _U1] in *. subst U1.
  apply length_12_inv in H as (?&?&?&?&?&?&?&?&?&?&?&?&->).
  cbn. to_R. unfold Rdiv. repeat split; lra.
Qed.

Lemma update_without_thrust_witness :
  x (update quad (1/100) spinning) 6 = - 9.80665.
Proof.
  refine (proj2 (proj2 (update_without_thrust quad (1/100) spinning
                          eq_refl _ eq_refl))).
  cbn. to_R. unfold Q2R. cbn. lra.
Defined.

(** X12.  Level hover: with roll and pitch 0, a mass that is not 0 and
    the thrust [U1 = m * g], [update] stores 0 as all three linear
    velocities, whatever the yaw. *)
Theorem update_level_hover (V : Vehicle R) (dt : R) (s : State R) :
  length (_x s) = 12%nat ->
  m V <> 0 ->
  x s 7 = 0 -> x s 9 = 0 ->
  _U1 s = m V * g ->
  x (update V dt s) 2 = 0 /\
  x (update V dt s) 4 = 0 /\
  x (update V dt s) 6 = 0.
Proof.
  intros H Hm. unfold x at 1 2. intros H7 H9 HU.
  unfold x. rewrite update_x by done.
  destruct s as [xs n o ab U1 U2 U3 U4 Om]. cbn [_x _U1] in *. subst U1.
  apply length_12_inv in H as (?&?&?&?&?&?&?&?&?&?&?&?&->).
  cbn in H7, H9. subst. cbn. to_R. rewrite cos_0, sin_0.
  repeat split; field; exact Hm.
Qed.

Lemma update_level_hover_witness :
  x (update quad (1/100)
       (mkState [0; 0; 0; 0; 5; 0; 0; 0; 0; 0; 1; 0] 4 [0; 0; 0; 0] false
                (m quad * g) 0 0 0 0)) 6 = 0.
Proof.
  refine (proj2 (proj2 (update_level_hover quad (1/100)
    (mkState [0; 0; 0; 0; 5; 0; 0; 0; 0; 0; 1; 0] 4 [0; 0; 0; 0] false
             (m quad * g) 0 0 0 0) eq_refl _ eq_refl eq_refl eq_refl))).
  cbn. to_R. unfold Q2R. cbn. lra.
Defined.
